(** * Recipes service: a shallow embedding of the request handlers

    The development follows the three Python modules of the service:
    [schemas] (request and response shapes), [models] (the mapped table
    row) and [routers] (the three route handlers).  The handlers talk to
    one shared database session; the session is threaded through them as
    explicit state, and the exceptions they raise or swallow are values
    of a small error monad.  The session is the one test_main.py builds
    for them: an asynchronous session over an SQLite table, made with
    [expire_on_commit=False]. *)

From Stdlib Require Import ZArith Lia Ascii String.
From stdpp Require Import base option list strings gmap sorting.

Local Open Scope string_scope.
Local Open Scope Z_scope.

(** ** Values that cross the wire *)

(** [datetime.time]: a time of day, compared field by field. *)
Module datetime.
Record time := mk_time
  { hour : Z; minute : Z; second : Z; microsecond : Z }.

Definition time_le (a b : time) : Prop :=
  hour a < hour b ∨ (hour a = hour b ∧
  (minute a < minute b ∨ (minute a = minute b ∧
  (second a < second b ∨ (second a = second b ∧
   microsecond a ≤ microsecond b))))).

#[global] Instance time_eq_dec : EqDecision time.
Proof. solve_decision. Defined.

#[global] Instance time_le_dec : RelDecision time_le.
Proof. intros a b. unfold time_le. apply _. Defined.
End datetime.

(** The JSON values a request body can hold under a key. *)
Inductive json :=
  | JNull
  | JBool (b : bool)
  | JNumber (n : Z)
  | JString (s : string).

(** A request body is a JSON object: a dict from keys to values. *)
Abbreviation Body := (gmap string json).

(** ** schemas.py *)
Module schemas.
Record BaseRecipes := mk_BaseRecipes
  { name : string;
    cooking_time : datetime.time;
    list_of_ingredients : string;
    description : string }.

(** [class RecipesIn(BaseRecipes): pass] *)
Abbreviation RecipesIn := BaseRecipes.

(** [class RecipesOut(BaseRecipes)] adds [id] and [views]. *)
Record RecipesOut := mk_RecipesOut
  { base : BaseRecipes; id : Z; views : Z }.

(** One entry of the error list of a rejected body. *)
Inductive error_type := missing | string_type | time_parsing.
Record ErrorDetails := mk_error { loc : string; type : error_type }.

#[global] Instance error_type_eq_dec : EqDecision error_type.
Proof. solve_decision. Defined.

(** The [str] annotation: only a JSON string is accepted. *)
Definition str_validator (v : json) : option string :=
  match v with JString s => Some s | _ => None end.

(** A field of the model: the key must be present and its value must
    pass the validator of the annotated type. *)
Definition validate_field {A} (body : Body) (key : string)
    (validator : json → option A) (ty : error_type)
    : list ErrorDetails + A :=
  match body !! key with
  | None => inl [mk_error key missing]
  | Some v =>
      match validator v with
      | Some a => inr a
      | None => inl [mk_error key ty]
      end
  end.

Definition errors_of {A} (r : list ErrorDetails + A) : list ErrorDetails :=
  match r with inl es => es | inr _ => [] end.

(** The fields [BaseRecipes] declares, all without a default. *)
Definition model_fields : list string :=
  ["name"; "cooking_time"; "list_of_ingredients"; "description"].

Section validation.
(** The [time] annotation is checked by the data-binding library; its
    parser is a parameter of the development. *)
Variable time_validator : json → option datetime.time.

(** Building a [RecipesIn] from a body: the four declared fields are
    looked up, every failure is collected, and keys that the model
    does not declare are never read. *)
Definition model_validate (body : Body) : list ErrorDetails + RecipesIn :=
  let n := validate_field body "name" str_validator string_type in
  let t := validate_field body "cooking_time" time_validator time_parsing in
  let l := validate_field body "list_of_ingredients" str_validator string_type in
  let d := validate_field body "description" str_validator string_type in
  match n, t, l, d with
  | inr n, inr t, inr l, inr d => inr (mk_BaseRecipes n t l d)
  | _, _, _, _ => inl (errors_of n ++ errors_of t ++ errors_of l ++ errors_of d)%list
  end.
End validation.
End schemas.

(** ** models.py *)
Module models.
(** A row of the ["Recipes"] table, as a loaded instance. *)
Record Recipes := mk_Recipes
  { id : Z;
    name : string;
    views : Z;
    cooking_time : datetime.time;
    list_of_ingredients : string;
    description : string }.

#[global] Instance Recipes_eq_dec : EqDecision Recipes.
Proof. solve_decision. Defined.

Definition with_views (v : Z) (r : Recipes) : Recipes :=
  mk_Recipes (id r) (name r) v (cooking_time r)
             (list_of_ingredients r) (description r).

(** An instance made by the constructor and not yet inserted: it has
    no [id], and [views] only when the caller passed it as a keyword. *)
Record Transient := mk_Transient
  { kw_views : option Z; kw_fields : schemas.BaseRecipes }.

(** [Column(Integer, default=0)] *)
Definition views_default : Z := 0.

(** The row an INSERT of a transient instance writes under key [pk]. *)
Definition persist (pk : Z) (t : Transient) : Recipes :=
  mk_Recipes pk (schemas.name (kw_fields t))
             (default views_default (kw_views t))
             (schemas.cooking_time (kw_fields t))
             (schemas.list_of_ingredients (kw_fields t))
             (schemas.description (kw_fields t)).
End models.

(** ** The shared session (database.py) *)
Module database.
Import models.

(** What the session has been told since the last commit or rollback. *)
Inductive change :=
  | Modified (r : Recipes)
  | Added (t : Transient).

(** Modelled from the spec: the storage layer (database.py: the engine
    and the one session shared by all requests) is a single table of
    recipe rows reached by execute, commit, rollback and refresh.  The
    state is the committed table, the changes the session holds that
    are not yet committed, what the process has printed, and whether
    the session has a transaction open. *)
Record World := mk_World
  { table : list Recipes;
    unit_of_work : list change;
    stdout : list string;
    in_transaction : bool }.

Inductive exn :=
  | HTTPException (status_code : Z) (detail : string)
  | SQLAlchemyError (msg : string)
  | InvalidRequestError (msg : string)
  | OverflowError (msg : string)
  | MultipleResultsFound
  | MissingGreenlet.

Definition str (e : exn) : string :=
  match e with
  | HTTPException c d => d
  | SQLAlchemyError msg => msg
  | InvalidRequestError msg => msg
  | OverflowError msg => msg
  | MultipleResultsFound =>
      "Multiple rows were found when one or none was required"
  | MissingGreenlet =>
      "greenlet_spawn has not been called; can't call await_only() here"
  end.

(** What a name bound to a mapped instance gives access to: the loaded
    attribute values, or nothing once the session has expired them. *)
Inductive instance :=
  | Loaded (r : Recipes)
  | Expired.

(** Handler code: it reads and writes the world and either returns or
    raises. *)
Definition M (A : Type) : Type := World → (exn + A) * World.

#[global] Instance M_ret : MRet M := λ A a w, (inr a, w).
#[global] Instance M_bind : MBind M := λ A B f m w,
  match m w with
  | (inr a, w') => f a w'
  | (inl e, w') => (inl e, w')
  end.

Definition raise {A} (e : exn) : M A := λ w, (inl e, w).

(** [try: body / except Exception as e: handler e] *)
Definition try_except {A} (body : M A) (handler : exn → M A) : M A := λ w,
  match body w with
  | (inr a, w') => (inr a, w')
  | (inl e, w') => handler e w'
  end.

Definition print (msg : string) : M unit := λ w,
  (inr (), mk_World (table w) (unit_of_work w) (stdout w ++ [msg])
                    (in_transaction w)).

(** The integers an SQLite INTEGER holds and its driver binds. *)
Definition int64 (z : Z) : Prop := - 2 ^ 63 ≤ z < 2 ^ 63.

#[global] Instance int64_dec z : Decision (int64 z).
Proof. unfold int64. apply _. Defined.

Definition overflow : exn :=
  OverflowError "Python int too large to convert to SQLite INTEGER".

(** Modelled from the spec: the one shared session of the storage layer,
    as test_main.py builds it.  It opens a transaction by itself the
    first time it is used for a statement, and keeps it open until a
    commit or a rollback. *)
Definition autobegin : M unit := λ w,
  (inr (), mk_World (table w) (unit_of_work w) (stdout w) true).

(** [select(Recipes).where(Recipes.id == recipe_id)]: the id is bound as
    a statement parameter, which the driver refuses outside 64 bits. *)
Definition select_where_id (recipe_id : Z) : M (list Recipes) :=
  autobegin;;
  if decide (int64 recipe_id)
  then (λ w, (inr (filter (λ r, id r = recipe_id) (table w)), w)) : M _
  else raise overflow.

(** [Result.scalar_one_or_none()] *)
Definition scalar_one_or_none (result : list Recipes) : M (option Recipes) :=
  match result with
  | [] => mret None
  | [r] => mret (Some r)
  | _ => raise MultipleResultsFound
  end.

(** [ORDER BY views DESC, cooking_time ASC]: [a] may come before [b]. *)
Definition order_by (a b : Recipes) : Prop :=
  views b < views a ∨
  (views a = views b ∧ datetime.time_le (cooking_time a) (cooking_time b)).

#[global] Instance order_by_dec : RelDecision order_by.
Proof. intros a b. unfold order_by. apply _. Defined.

(** [select(Recipes).order_by(...)] followed by [scalars().all()] *)
Definition select_order_by : M (list Recipes) :=
  autobegin;;
  ((λ w, (inr (merge_sort order_by (table w)), w)) : M _).

(** Attribute assignment on a loaded instance: the session records it. *)
Definition set_views (r : Recipes) (v : Z) : M Recipes := λ w,
  let r' := with_views v r in
  (inr r', mk_World (table w) (unit_of_work w ++ [Modified r']) (stdout w)
                    (in_transaction w)).

(** [session.add(instance)] *)
Definition add (t : Transient) : M unit :=
  autobegin;;
  ((λ w, (inr (), mk_World (table w) (unit_of_work w ++ [Added t]) (stdout w)
                           (in_transaction w))) : M _).

(** Modelled from the spec: the id of a row is generated by storage on
    insert and is unique; it is 1 for an empty table and otherwise one
    more than the largest id of the table. *)
Definition next_id (rows : list Recipes) : Z :=
  match id <$> rows with
  | [] => 1
  | i :: ids => foldr Z.max i ids + 1
  end.

(** [UPDATE "Recipes" SET views = ? WHERE id = ?] *)
Definition update_views (r : Recipes) (rows : list Recipes) : list Recipes :=
  (λ x, if decide (id x = id r) then with_views (views r) x else x) <$> rows.

(** Writing the pending changes, oldest first; the result is the new
    table and the instances the INSERTs made persistent, or nothing when
    a [views] to write does not fit in 64 bits. *)
Fixpoint flush (changes : list change) (rows : list Recipes)
    : option (list Recipes * list Recipes) :=
  match changes with
  | [] => Some (rows, [])
  | Modified r :: cs =>
      if decide (int64 (views r))
      then flush cs (update_views r rows)
      else None
  | Added t :: cs =>
      let r := persist (next_id rows) t in
      if decide (int64 (views r))
      then '(rows', inserted) ← flush cs (rows ++ [r]);
           Some (rows', r :: inserted)
      else None
  end.

(** Modelled from the spec: commit-a-transaction, [session.commit()].
    Storage either refuses (the error it reports is given by the
    environment, or a value does not fit) and nothing is written, or
    the pending changes become the table and the transaction ends. *)
Definition commit (error : option string) : M (list Recipes) := λ w,
  match error with
  | Some msg => (inl (SQLAlchemyError msg), w)
  | None =>
      match flush (unit_of_work w) (table w) with
      | Some (rows, inserted) =>
          (inr inserted, mk_World rows [] (stdout w) false)
      | None => (inl overflow, w)
      end
  end.

(** Modelled from the spec: rollback-a-transaction, [session.rollback()].
    The pending changes are dropped and the transaction ends.  When
    there was a transaction to roll back, every instance of the session
    is expired; the result tells whether that happened. *)
Definition rollback : M bool := λ w,
  (inr (in_transaction w), mk_World (table w) [] (stdout w) false).

(** Modelled from the spec: refresh-an-entity-from-storage,
    [session.refresh(instance)]: the row of the instance is selected
    again. *)
Definition refresh (r : Recipes) : M Recipes :=
  autobegin;;
  ((λ w, match filter (λ x, id x = id r) (table w) with
         | x :: _ => (inr x, w)
         | [] => (inl (InvalidRequestError "Could not refresh instance"), w)
         end) : M _).

(** [async with session.begin(): body]: entering raises when the session
    already has a transaction open; otherwise a transaction begins, is
    committed when the body returns, and is rolled back, re-raising,
    when the body or the commit raises. *)
Definition session_begin (error : option string) (body : M unit)
    : M (list Recipes) := λ w,
  if in_transaction w
  then (inl (InvalidRequestError
               "A transaction is already begun on this Session."), w)
  else try_except (autobegin;; body;; commit error)
                  (λ e, rollback;; raise e) w.

(** Reading the attributes of an instance, as the response model does:
    an expired instance has to be loaded again, which an asynchronous
    session cannot do from there. *)
Definition attributes (i : instance) : M Recipes :=
  match i with
  | Loaded r => mret r
  | Expired => autobegin;; raise MissingGreenlet
  end.
End database.

(** ** routers.py *)
Module routers.
Import database.

(** What storage does with the commit of one request: the error it
    reports, if any. *)
Record Faults := mk_Faults { commit_error : option string }.

Definition no_faults : Faults := mk_Faults None.

(** [recipe.model_dump()]: the dict of the declared fields. *)
Definition model_dump (recipe : schemas.RecipesIn) : schemas.BaseRecipes :=
  recipe.

(** The [models.Recipes] constructor given the keywords of a dumped
    [RecipesIn]: no [views] keyword is among them. *)
Definition Recipes_init (kwargs : schemas.BaseRecipes) : models.Transient :=
  models.mk_Transient None kwargs.

(** [@app.get("/recipes/")] *)
Definition recipes : M (list models.Recipes) :=
  res ← select_order_by;
  mret res.

(** [@app.get("/recipes/{recipe_id}")] (the second function the module
    calls [recipes]).  [refresh] reloads the instance in place, so after
    the [try] the name [recipe] is the reloaded row; when the [except]
    branch ran it is the instance as the rollback left it. *)
Definition recipes_by_id (env : Faults) (recipe_id : Z) : M instance :=
  result ← select_where_id recipe_id;
  recipe ← scalar_one_or_none result;
  match recipe with
  | None => raise (HTTPException 404 "Recipe not found")
  | Some recipe =>
      recipe ← set_views recipe (models.views recipe + 1);
      recipe ← try_except
        (commit (commit_error env);;
         recipe ← refresh recipe;
         mret (Loaded recipe))
        (λ e,
         expired ← rollback;
         print ("Error updating view count: " +:+ str e);;
         mret (if expired : bool then Expired else Loaded recipe));
      mret recipe
  end.

(** [@app.post("/recipes/")] *)
Definition add_recipes (env : Faults) (recipe : schemas.RecipesIn)
    : M instance :=
  let new_recipe := Recipes_init (model_dump recipe) in
  inserted ← session_begin (commit_error env) (add new_recipe);
  match last inserted with
  | Some new_recipe => mret (Loaded new_recipe)
  | None => raise (InvalidRequestError "Instance is not persistent")
  end.

(** *** The framework around the handlers *)

(** [RecipesOut] with [from_attributes=True], read off an instance. *)
Definition from_attributes (r : models.Recipes) : schemas.RecipesOut :=
  schemas.mk_RecipesOut
    (schemas.mk_BaseRecipes (models.name r) (models.cooking_time r)
       (models.list_of_ingredients r) (models.description r))
    (models.id r) (models.views r).

Inductive Content :=
  | Recipe (r : schemas.RecipesOut)
  | RecipeList (rs : list schemas.RecipesOut)
  | Detail (detail : string)
  | ValidationErrors (errors : list schemas.ErrorDetails)
  | InternalServerError.

Record Response := mk_Response { status_code : Z; content : Content }.

(** [response_model=schemas.RecipesOut] *)
Definition RecipesOut_response (i : instance) : M Content :=
  r ← attributes i;
  mret (Recipe (from_attributes r)).

(** [response_model=List[schemas.RecipesOut]] *)
Definition RecipesOut_list_response (rs : list models.Recipes) : M Content :=
  mret (RecipeList (from_attributes <$> rs)).

(** The handler runs, then what it returned is serialized: the result is
    sent with status 200; an [HTTPException] becomes its status and
    detail, any other exception a 500. *)
Definition respond {A} (response_model : A → M Content) (handler : M A)
    (w : World) : Response * World :=
  match (a ← handler; response_model a) w with
  | (inr body, w') => (mk_Response 200 body, w')
  | (inl (HTTPException code detail), w') =>
      (mk_Response code (Detail detail), w')
  | (inl _, w') => (mk_Response 500 InternalServerError, w')
  end.

Inductive Request :=
  | GET_recipes
  | GET_recipe (recipe_id : Z)
  | POST_recipes (body : Body).

Section app.
Variable time_validator : json → option datetime.time.

(** One request: the body of a POST is validated before the handler
    is entered. *)
Definition app (env : Faults) (req : Request) (w : World)
    : Response * World :=
  match req with
  | GET_recipes => respond RecipesOut_list_response recipes w
  | GET_recipe recipe_id =>
      respond RecipesOut_response (recipes_by_id env recipe_id) w
  | POST_recipes body =>
      match schemas.model_validate time_validator body with
      | inl errors => (mk_Response 422 (ValidationErrors errors), w)
      | inr recipe => respond RecipesOut_response (add_recipes env recipe) w
      end
  end.

(** Requests served one after the other. *)
Fixpoint serve (reqs : list (Faults * Request)) (w : World)
    : list Response * World :=
  match reqs with
  | [] => ([], w)
  | (env, req) :: reqs =>
      let '(resp, w') := app env req w in
      let '(resps, w'') := serve reqs w' in
      (resp :: resps, w'')
  end.
End app.
End routers.

(** ** A concrete parser for the time field *)
Module pydantic.
Definition digit (c : ascii) : option Z :=
  let n := Z.of_nat (nat_of_ascii c) - 48 in
  if decide (0 ≤ n ≤ 9) then Some n else None.

Definition two_digits (a b : ascii) (bound : Z) : option Z :=
  x ← digit a; y ← digit b;
  if decide (10 * x + y < bound) then Some (10 * x + y) else None.

(** Modelled from the spec: the time field is parsed from the fixed
    string format HH:MM:SS; the parser itself belongs to the
    data-binding library. *)
Definition time_validator (v : json) : option datetime.time :=
  match v with
  | JString (String h1 (String h2 (String ":" (String m1 (String m2
      (String ":" (String s1 (String s2 EmptyString)))))))) =>
      h ← two_digits h1 h2 24;
      m ← two_digits m1 m2 60;
      s ← two_digits s1 s2 60;
      Some (datetime.mk_time h m s 0)
  | _ => None
  end.
End pydantic.

(** ** Invariants of the shared state, and the words of the statements *)
Import database routers.

(** Between two requests the session holds no uncommitted change. *)
Definition idle (w : World) : Prop := unit_of_work w = [].

(** [id] is the primary key of the table. *)
Definition primary_key (w : World) : Prop := NoDup (models.id <$> table w).

(** The stored row with a given id, if there is one. *)
Definition stored (w : World) (recipe_id : Z) : option models.Recipes :=
  head (filter (λ r, models.id r = recipe_id) (table w)).

(** [r'] has the id, name, cooking time, ingredients and description of
    [r]; nothing is said about views. *)
Definition same_columns (r r' : models.Recipes) : Prop :=
  models.id r' = models.id r
  ∧ models.name r' = models.name r
  ∧ models.cooking_time r' = models.cooking_time r
  ∧ models.list_of_ingredients r' = models.list_of_ingredients r
  ∧ models.description r' = models.description r.

(** The state [w] with a transaction open on the session. *)
Definition begun (w : World) : World :=
  mk_World (table w) (unit_of_work w) (stdout w) true.

(** A 200 that shows the columns of [r] and [v] views. *)
Definition shown (r : models.Recipes) (v : Z) : Response :=
  mk_Response 200
    (Recipe (schemas.mk_RecipesOut
               (schemas.mk_BaseRecipes (models.name r) (models.cooking_time r)
                  (models.list_of_ingredients r) (models.description r))
               (models.id r) v)).

Definition internal_server_error : Response :=
  mk_Response 500 InternalServerError.

Definition not_found : Response :=
  mk_Response 404 (Detail "Recipe not found").

(** The error, if any, that the commit of one fetch raises when the
    incremented count is [v]: the one storage reports, or the one of a
    count that does not fit in 64 bits. *)
Definition commit_failure (env : Faults) (v : Z) : option string :=
  match commit_error env with
  | Some msg => Some msg
  | None => if decide (int64 v) then None else Some (str overflow)
  end.

(** The row a create request writes into a table. *)
Definition created_row (recipe : schemas.RecipesIn)
    (rows : list models.Recipes) : models.Recipes :=
  models.mk_Recipes (next_id rows) (schemas.name recipe) 0
    (schemas.cooking_time recipe) (schemas.list_of_ingredients recipe)
    (schemas.description recipe).


(** A request that reads: the list or a fetch. *)
Definition is_GET (req : Request) : Prop :=
  match req with POST_recipes _ => False | _ => True end.

(** The three things one request can do to the table. *)
Inductive table_step (req : Request) (rows : list models.Recipes)
    : list models.Recipes → Prop :=
  | step_same : table_step req rows rows
  | step_fetch r :
      r ∈ rows → req = GET_recipe (models.id r) →
      table_step req rows
        (update_views (models.with_views (models.views r + 1) r) rows)
  | step_create body (recipe : schemas.RecipesIn) :
      req = POST_recipes body →
      table_step req rows (rows ++ [created_row recipe rows]).

(** How many requests of a history fetch [recipe_id] with a commit that
    storage accepts. *)
Fixpoint committed_fetches (recipe_id : Z) (reqs : list (Faults * Request))
    : Z :=
  match reqs with
  | [] => 0
  | (env, GET_recipe i) :: reqs =>
      (if decide (i = recipe_id)
       then match commit_error env with None => 1 | Some _ => 0 end
       else 0)
      + committed_fetches recipe_id reqs
  | _ :: reqs => committed_fetches recipe_id reqs
  end.

(** How many requests of a history fetch [recipe_id] at all. *)
Fixpoint fetches (recipe_id : Z) (reqs : list (Faults * Request)) : Z :=
  match reqs with
  | [] => 0
  | (_, GET_recipe i) :: reqs =>
      (if decide (i = recipe_id) then 1 else 0) + fetches recipe_id reqs
  | _ :: reqs => fetches recipe_id reqs
  end.

(** How many create requests of a history were answered with a 200. *)
Fixpoint created (reqs : list (Faults * Request)) (resps : list Response)
    : nat :=
  match reqs, resps with
  | (_, POST_recipes _) :: reqs, resp :: resps =>
      Nat.add (if decide (status_code resp = 200) then 1%nat else 0%nat)
              (created reqs resps)
  | _ :: reqs, _ :: resps => created reqs resps
  | _, _ => 0%nat
  end.

(** The body of [test_recipe_default_views] and [test_recipe_custom_views]
    (test_main.py): an instance is added to the session, the session is
    committed, and the instance is refreshed and returned. *)
Definition add_commit_refresh (recipe : models.Transient) : M models.Recipes :=
  add recipe;;
  inserted ← commit None;
  match last inserted with
  | Some recipe => refresh recipe
  | None => raise (InvalidRequestError "Instance is not persistent")
  end.

(** ** The data of the test suite (test_main.py) *)
Module fixtures.
Definition time (h m s : Z) : datetime.time := datetime.mk_time h m s 0.

(** [sample_recipes]: three rows seeded directly into the table. *)
Definition sample_recipes : list models.Recipes :=
  [ models.mk_Recipes 1 "Pasta Carbonara" 100 (time 0 30 0)
      "pasta, eggs, bacon, parmesan, pepper" "A classic Italian recipe";
    models.mk_Recipes 2 "Borscht" 200 (time 1 30 0)
      "beet, cabbage, potato, meat, carrot" "A traditional soup";
    models.mk_Recipes 3 "Omelette" 50 (time 0 10 0)
      "eggs, milk, salt, butter" "A quick breakfast" ].

Definition carbonara : models.Recipes :=
  models.mk_Recipes 1 "Pasta Carbonara" 100 (time 0 30 0)
    "pasta, eggs, bacon, parmesan, pepper" "A classic Italian recipe".

(** The session right after the fixture committed the samples. *)
Definition test_db : World := mk_World sample_recipes [] [] false.
Definition empty_db : World := mk_World [] [] [] false.

(** The body of [test_create_recipe_success]. *)
Definition new_recipe : Body :=
  <["name" := JString "Caesar salad"]>
    (<["cooking_time" := JString "00:20:00"]>
      (<["list_of_ingredients" := JString "lettuce, chicken, parmesan"]>
        (<["description" := JString "A classic salad"]> ∅))).

Definition caesar : schemas.RecipesIn :=
  schemas.mk_BaseRecipes "Caesar salad" (time 0 20 0)
    "lettuce, chicken, parmesan" "A classic salad".

(** The same body with keys the schema does not declare. *)
Definition new_recipe_extra : Body :=
  <["views" := JNumber 1000]> (<["id" := JNumber 1]> new_recipe).

(** The body of [test_create_recipe_missing_fields]. *)
Definition incomplete_recipe : Body :=
  <["name" := JString "Incomplete"]>
    (<["cooking_time" := JString "00:15:00"]> ∅).

(** The body of [test_create_recipe_invalid_time_format]. *)
Definition invalid_recipe : Body :=
  <["name" := JString "Test"]>
    (<["cooking_time" := JString "invalid_time"]>
      (<["list_of_ingredients" := JString "test"]>
        (<["description" := JString "test"]> ∅))).

Definition disk_full : Faults := mk_Faults (Some "disk full").

(** A mixed history: fetches, a create, a failed commit and a list. *)
Definition history : list (Faults * Request) :=
  [ (no_faults, GET_recipe 1);
    (no_faults, POST_recipes new_recipe);
    (disk_full, GET_recipe 1);
    (no_faults, GET_recipes);
    (no_faults, GET_recipe 4) ].

(** A history that creates first, as [test_created_recipe_appears_in_list]
    does, and reads afterwards. *)
Definition create_then_read : list (Faults * Request) :=
  [ (no_faults, POST_recipes new_recipe);
    (no_faults, GET_recipes);
    (disk_full, GET_recipe 4);
    (no_faults, GET_recipe 4);
    (no_faults, POST_recipes new_recipe) ].

Definition borscht : models.Recipes :=
  models.mk_Recipes 2 "Borscht" 200 (time 1 30 0)
    "beet, cabbage, potato, meat, carrot" "A traditional soup".

Definition omelette : models.Recipes :=
  models.mk_Recipes 3 "Omelette" 50 (time 0 10 0)
    "eggs, milk, salt, butter" "A quick breakfast".

(** The same rows in the opposite row order. *)
Definition reversed_db : World :=
  mk_World [omelette; borscht; carbonara] [] [] false.

(** The instance of [test_recipe_custom_views]. *)
Definition custom_views : models.Transient :=
  models.mk_Transient (Some 42) caesar.
End fixtures.

(** ** Rows and keys *)
Section rows.
Implicit Types (r x : models.Recipes) (rows : list models.Recipes).

Lemma filter_id_absent rows (i : Z) :
  (∀ r, r ∈ rows → models.id r ≠ i) →
  filter (λ x, models.id x = i) rows = [].
Proof.
  induction rows as [|x rows IH]; intros Hno; [done|].
  rewrite filter_cons. destruct (decide (models.id x = i)) as [Hx|_].
  - exfalso. apply (Hno x); [left | done].
  - apply IH. intros r Hr. apply Hno. by right.
Qed.

Lemma filter_id_unique rows r :
  NoDup (models.id <$> rows) → r ∈ rows →
  filter (λ x, models.id x = models.id r) rows = [r].
Proof.
  induction rows as [|x rows IH]; intros Hnd Hin.
  - by apply elem_of_nil in Hin.
  - rewrite fmap_cons in Hnd. apply NoDup_cons in Hnd as [Hx Hnd].
    rewrite filter_cons. apply elem_of_cons in Hin as [->|Hin].
    + rewrite decide_True by done. f_equal.
      apply filter_id_absent. intros y Hy Heq. apply Hx.
      rewrite <- Heq. apply list_elem_of_fmap. by exists y.
    + rewrite decide_False; [by apply IH|].
      intros Heq. apply Hx. rewrite Heq.
      apply list_elem_of_fmap. by exists r.
Qed.

Lemma same_id_same_row rows x y :
  NoDup (models.id <$> rows) → x ∈ rows → y ∈ rows →
  models.id x = models.id y → x = y.
Proof.
  intros Hnd Hx Hy Heq.
  pose proof (filter_id_unique _ y Hnd Hy) as Hf.
  assert (x ∈ filter (λ z, models.id z = models.id y) rows) as Hxf
    by (by apply list_elem_of_filter).
  rewrite Hf in Hxf. by apply list_elem_of_singleton in Hxf.
Qed.

Lemma stored_elem w r :
  primary_key w → r ∈ table w → stored w (models.id r) = Some r.
Proof.
  intros Hpk Hin. unfold stored. by rewrite (filter_id_unique _ r Hpk Hin).
Qed.

Lemma stored_Some w (i : Z) r :
  stored w i = Some r → r ∈ table w ∧ models.id r = i.
Proof.
  unfold stored. intros Hhead.
  assert (r ∈ filter (λ x, models.id x = i) (table w)) as Hin.
  { destruct (filter _ (table w)) as [|y l]; [done|].
    injection Hhead as ->. by left. }
  by apply list_elem_of_filter in Hin as [? ?].
Qed.

Lemma absent_id (recipe_id : Z) rows :
  recipe_id ∉ (models.id <$> rows) →
  ∀ r, r ∈ rows → models.id r ≠ recipe_id.
Proof.
  intros Hno r Hr Heq. apply Hno. apply list_elem_of_fmap. by exists r.
Qed.

Lemma update_views_ids r rows :
  models.id <$> update_views r rows = models.id <$> rows.
Proof.
  unfold update_views. rewrite <- list_fmap_compose.
  apply list_fmap_ext. intros _ x _. simpl. by case_decide.
Qed.

Lemma update_views_length r rows : length (update_views r rows) = length rows.
Proof. unfold update_views. apply length_fmap. Qed.

Lemma update_views_elem r v rows :
  r ∈ rows → models.with_views v r ∈ update_views (models.with_views v r) rows.
Proof.
  intros Hin. unfold update_views. apply list_elem_of_fmap.
  exists r. split; [|done]. by rewrite decide_True.
Qed.

Lemma update_views_other r0 r rows :
  r ∈ rows → models.id r ≠ models.id r0 → r ∈ update_views r0 rows.
Proof.
  intros Hin Hne. unfold update_views. apply list_elem_of_fmap.
  exists r. split; [|done]. by rewrite decide_False.
Qed.

Lemma update_views_filter r v rows :
  NoDup (models.id <$> rows) → r ∈ rows →
  filter (λ x, models.id x = models.id r)
         (update_views (models.with_views v r) rows)
  = [models.with_views v r].
Proof.
  intros Hnd Hin.
  apply (filter_id_unique _ (models.with_views v r)).
  - by rewrite update_views_ids.
  - by apply update_views_elem.
Qed.

(** What the assignment of [views] does, in terms of the columns. *)
Lemma with_views_columns (v : Z) r :
  models.views (models.with_views v r) = v
  ∧ same_columns r (models.with_views v r).
Proof. done. Qed.

Lemma with_views_twice (v v' : Z) r :
  models.with_views v (models.with_views v' r) = models.with_views v r.
Proof. done. Qed.

Lemma with_views_same r : models.with_views (models.views r) r = r.
Proof. by destruct r. Qed.

Lemma same_columns_refl r : same_columns r r.
Proof. done. Qed.

Lemma same_columns_trans r1 r2 r3 :
  same_columns r1 r2 → same_columns r2 r3 → same_columns r1 r3.
Proof. unfold same_columns. intuition congruence. Qed.

Lemma foldr_max_ge (base : Z) (l : list Z) (z : Z) :
  z = base ∨ z ∈ l → z ≤ foldr Z.max base l.
Proof.
  induction l as [|y l IH]; cbn [foldr].
  - intros [->|Hin]; [lia|by apply elem_of_nil in Hin].
  - intros [->|Hin].
    + specialize (IH (or_introl eq_refl)). lia.
    + apply elem_of_cons in Hin as [->|Hin]; [lia|].
      specialize (IH (or_intror Hin)). lia.
Qed.

Lemma next_id_above rows r : r ∈ rows → models.id r < next_id rows.
Proof.
  intros Hin. unfold next_id.
  destruct rows as [|x rows]; [by apply elem_of_nil in Hin|].
  rewrite fmap_cons.
  assert (models.id r ≤ foldr Z.max (models.id x) (models.id <$> rows));
    [|lia].
  apply foldr_max_ge. apply elem_of_cons in Hin as [->|Hin]; [by left|].
  right. apply list_elem_of_fmap. by exists r.
Qed.

Lemma next_id_fresh rows : next_id rows ∉ (models.id <$> rows).
Proof.
  intros Hin. apply list_elem_of_fmap in Hin as (r & Heq & Hr).
  apply next_id_above in Hr. lia.
Qed.
End rows.

(** ** Every request, case by case *)
Section requests.
Variable time_validator : json → option datetime.time.
Local Abbreviation app := (app time_validator).
Local Abbreviation serve := (serve time_validator).
Local Abbreviation model_validate := (schemas.model_validate time_validator).
Implicit Types (r x : models.Recipes) (rows : list models.Recipes).

Lemma app_GET_recipes env w :
  app env GET_recipes w
  = (mk_Response 200
       (RecipeList (from_attributes <$> merge_sort order_by (table w))),
     begun w).
Proof. done. Qed.

(** A fetch of an id that does not fit in 64 bits. *)
Lemma app_GET_recipe_overflow env (recipe_id : Z) w :
  ¬ int64 recipe_id →
  app env (GET_recipe recipe_id) w = (internal_server_error, begun w).
Proof.
  intros Hbig. unfold routers.app, respond, recipes_by_id, select_where_id,
    mbind, M_bind, autobegin. cbn.
  by rewrite decide_False.
Qed.

(** A fetch of an id that no row has. *)
Lemma app_GET_recipe_missing env (recipe_id : Z) w :
  int64 recipe_id → recipe_id ∉ (models.id <$> table w) →
  app env (GET_recipe recipe_id) w = (not_found, begun w).
Proof.
  intros Hfits Hno. unfold routers.app, respond, recipes_by_id,
    select_where_id, mbind, M_bind, autobegin. cbn.
  rewrite decide_True by done. cbn.
  by rewrite (filter_id_absent _ _ (absent_id _ _ Hno)).
Qed.

(** A fetch of a stored row under the two invariants. *)
Lemma app_GET_recipe_found env w r :
  idle w → primary_key w → r ∈ table w → int64 (models.id r) →
  app env (GET_recipe (models.id r)) w
  = match commit_failure env (models.views r + 1) with
    | None =>
        (shown r (models.views r + 1),
         mk_World
           (update_views (models.with_views (models.views r + 1) r) (table w))
           [] (stdout w) true)
    | Some msg =>
        (internal_server_error,
         mk_World (table w) []
                  (stdout w ++ ["Error updating view count: " +:+ msg]) true)
    end.
Proof.
  destruct w as [rows uow out tx]. unfold idle, primary_key. cbn.
  intros -> Hnd Hin Hfits.
  unfold routers.app, respond, recipes_by_id, select_where_id,
    mbind, M_bind, autobegin. cbn.
  rewrite decide_True by done. cbn.
  rewrite (filter_id_unique rows r Hnd Hin). cbn.
  unfold try_except, commit, commit_failure, mbind, M_bind. cbn.
  destruct (commit_error env) as [msg|]; [done|].
  destruct (decide (int64 (models.views r + 1))) as [Hv|Hv]; [|done].
  cbn. unfold refresh, mbind, M_bind, autobegin. cbn.
  pose proof (update_views_filter r (models.views r + 1) rows Hnd Hin) as Hf.
  unfold update_views in Hf. cbn in Hf. rewrite Hf.
  by destruct r.
Qed.

Lemma app_POST_invalid env body errors w :
  model_validate body = inl errors →
  app env (POST_recipes body) w
  = (mk_Response 422 (ValidationErrors errors), w).
Proof. intros Hbad. unfold routers.app. by rewrite Hbad. Qed.

(** A create request on a session that has a transaction open. *)
Lemma app_POST_in_transaction env body (recipe : schemas.RecipesIn) w :
  model_validate body = inr recipe → in_transaction w = true →
  app env (POST_recipes body) w = (internal_server_error, w).
Proof.
  intros Hvalid Htx. unfold routers.app, respond, add_recipes, session_begin,
    mbind, M_bind.
  by rewrite Hvalid, Htx.
Qed.

(** A create request on an idle session with no transaction open. *)
Lemma app_POST_fresh env body (recipe : schemas.RecipesIn) w :
  model_validate body = inr recipe → idle w → in_transaction w = false →
  app env (POST_recipes body) w
  = match commit_error env with
    | None =>
        (mk_Response 200
           (Recipe (schemas.mk_RecipesOut recipe (next_id (table w)) 0)),
         mk_World (table w ++ [created_row recipe (table w)]) []
                  (stdout w) false)
    | Some _ => (internal_server_error, w)
    end.
Proof.
  destruct w as [rows uow out tx]. unfold idle. cbn. intros Hvalid -> ->.
  unfold routers.app, respond, add_recipes, session_begin, try_except,
    mbind, M_bind.
  rewrite Hvalid. cbn. unfold commit. cbn.
  destruct (commit_error env); [done|].
  cbn. by destruct recipe.
Qed.
End requests.

(** ** One request and the invariants *)
Section steps.
Variable time_validator : json → option datetime.time.
Local Abbreviation app := (app time_validator).
Local Abbreviation serve := (serve time_validator).
Local Abbreviation model_validate := (schemas.model_validate time_validator).
Implicit Types (r x : models.Recipes) (rows : list models.Recipes).

Lemma app_cases env req w :
  idle w → primary_key w →
  match req with
  | GET_recipes =>
      app env req w
      = (mk_Response 200
           (RecipeList (from_attributes <$> merge_sort order_by (table w))),
         begun w)
  | GET_recipe recipe_id =>
      (¬ int64 recipe_id
       ∧ app env req w = (internal_server_error, begun w))
      ∨ (int64 recipe_id ∧ (recipe_id ∉ (models.id <$> table w))
         ∧ app env req w = (not_found, begun w))
      ∨ (∃ r, r ∈ table w ∧ recipe_id = models.id r ∧ int64 recipe_id
              ∧ app env req w
                = match commit_failure env (models.views r + 1) with
                  | None =>
                      (shown r (models.views r + 1),
                       mk_World
                         (update_views
                            (models.with_views (models.views r + 1) r)
                            (table w))
                         [] (stdout w) true)
                  | Some msg =>
                      (internal_server_error,
                       mk_World (table w) []
                         (stdout w ++ ["Error updating view count: " +:+ msg])
                         true)
                  end)
  | POST_recipes body =>
      match model_validate body with
      | inl errors =>
          app env req w = (mk_Response 422 (ValidationErrors errors), w)
      | inr recipe =>
          if in_transaction w
          then app env req w = (internal_server_error, w)
          else match commit_error env with
               | None =>
                   app env req w
                   = (mk_Response 200
                        (Recipe (schemas.mk_RecipesOut recipe
                                   (next_id (table w)) 0)),
                      mk_World (table w ++ [created_row recipe (table w)]) []
                               (stdout w) false)
               | Some _ => app env req w = (internal_server_error, w)
               end
      end
  end.
Proof.
  intros Hidle Hpk. destruct req as [|recipe_id|body].
  - apply app_GET_recipes.
  - destruct (decide (int64 recipe_id)) as [Hfits|Hbig].
    + destruct (decide (recipe_id ∈ models.id <$> table w)) as [Hin|Hno].
      * right. right. apply list_elem_of_fmap in Hin as (r & -> & Hin).
        exists r. split; [done|]. split; [done|]. split; [done|].
        by apply app_GET_recipe_found.
      * right. left. split; [done|]. split; [done|].
        by apply app_GET_recipe_missing.
    + left. split; [done|]. by apply app_GET_recipe_overflow.
  - destruct (model_validate body) as [errors|recipe] eqn:Hvalid.
    + by apply app_POST_invalid.
    + destruct (in_transaction w) eqn:Htx.
      * by apply (app_POST_in_transaction _ env body recipe).
      * pose proof (app_POST_fresh _ env body recipe w Hvalid Hidle Htx) as Happ.
        by destruct (commit_error env).
Qed.

Lemma app_table_step env req w :
  idle w → primary_key w →
  idle (snd (app env req w))
  ∧ table_step req (table w) (table (snd (app env req w))).
Proof.
  intros Hidle Hpk. pose proof (app_cases env req w Hidle Hpk) as Hcase.
  destruct req as [|recipe_id|body].
  - rewrite Hcase. split; [done|constructor].
  - destruct Hcase as [[_ ->]|[(_ & _ & ->)|(r & Hin & -> & _ & ->)]].
    + split; [done|constructor].
    + split; [done|constructor].
    + destruct (commit_failure env (models.views r + 1)).
      * split; [done|constructor].
      * split; [done|]. by econstructor.
  - destruct (model_validate body) as [errors|recipe].
    + rewrite Hcase. split; [done|constructor].
    + destruct (in_transaction w).
      * rewrite Hcase. split; [done|constructor].
      * destruct (commit_error env); rewrite Hcase.
        -- split; [done|constructor].
        -- split; [done|]. by econstructor.
Qed.

Lemma table_step_primary_key req rows rows' :
  table_step req rows rows' →
  NoDup (models.id <$> rows) → NoDup (models.id <$> rows').
Proof.
  intros [|r Hr _|body recipe _] Hnd; [done|by rewrite update_views_ids|].
  rewrite fmap_app. apply NoDup_app. split; [done|]. split.
  - intros i Hi Hnew. apply list_elem_of_singleton in Hnew. subst i.
    by apply next_id_fresh in Hi.
  - apply NoDup_singleton.
Qed.

Lemma app_keeps_invariants env req w :
  idle w → primary_key w →
  idle (snd (app env req w)) ∧ primary_key (snd (app env req w)).
Proof.
  intros Hidle Hpk.
  destruct (app_table_step env req w Hidle Hpk) as [Hidle1 Hstep].
  split; [done|]. by eapply table_step_primary_key.
Qed.

(** A stored row survives a request with all its columns except,
    possibly, [views], which can only go up, and only when the request
    fetches that row. *)
Lemma table_step_old req rows rows' r :
  table_step req rows rows' → NoDup (models.id <$> rows) → r ∈ rows →
  ∃ r', r' ∈ rows' ∧ same_columns r r'
        ∧ models.views r ≤ models.views r'
        ∧ (models.views r ≠ models.views r' → req = GET_recipe (models.id r)).
Proof.
  intros [|r0 Hr0 Hreq|body recipe _] Hnd Hin.
  - exists r. split; [done|]. split; [done|]. split; [lia|done].
  - destruct (decide (models.id r = models.id r0)) as [Heq|Hne].
    + assert (r = r0) as -> by (by apply (same_id_same_row rows)).
      exists (models.with_views (models.views r0 + 1) r0).
      split; [by apply update_views_elem|].
      destruct (with_views_columns (models.views r0 + 1) r0) as [Hv Hcols].
      split; [done|]. rewrite Hv. split; [lia|done].
    + exists r. split; [by apply update_views_other|].
      split; [done|]. split; [lia|done].
  - exists r. split; [apply elem_of_app; by left|].
    split; [done|]. split; [lia|done].
Qed.

(** A row that a request added is a created one: its [views] is 0. *)
Lemma table_step_new req rows rows' r :
  table_step req rows rows' → r ∈ rows' →
  models.id r ∉ (models.id <$> rows) →
  models.views r = 0 ∧ ∃ body, req = POST_recipes body.
Proof.
  intros [|r0 Hr0 _|body recipe Hreq] Hin Hnew.
  - exfalso. apply Hnew. apply list_elem_of_fmap. by exists r.
  - exfalso. apply Hnew. rewrite <- (update_views_ids
      (models.with_views (models.views r0 + 1) r0)).
    apply list_elem_of_fmap. by exists r.
  - apply elem_of_app in Hin as [Hin|Hin].
    + exfalso. apply Hnew. apply list_elem_of_fmap. by exists r.
    + apply list_elem_of_singleton in Hin. subst r. split; [done|by exists body].
Qed.

Lemma serve_cons env req reqs w :
  serve ((env, req) :: reqs) w
  = (fst (app env req w) :: fst (serve reqs (snd (app env req w))),
     snd (serve reqs (snd (app env req w)))).
Proof.
  cbn [routers.serve]. destruct (app env req w) as [resp w1].
  cbn [fst snd]. by destruct (serve reqs w1).
Qed.

(** Requests served from a state that satisfies the two invariants:
    the invariants hold again at the end, every row that was stored is
    still stored with at most its [views] changed, upwards, and a row
    that was not stored before was created by a POST. *)
Lemma serve_history reqs w :
  idle w → primary_key w →
  idle (snd (serve reqs w))
  ∧ primary_key (snd (serve reqs w))
  ∧ (∀ r, r ∈ table w →
       ∃ r', r' ∈ table (snd (serve reqs w))
             ∧ same_columns r r'
             ∧ models.views r ≤ models.views r'
             ∧ (models.views r ≠ models.views r' →
                ∃ env, (env, GET_recipe (models.id r)) ∈ reqs))
  ∧ (∀ r, r ∈ table (snd (serve reqs w)) →
       models.id r ∉ (models.id <$> table w) →
       0 ≤ models.views r
       ∧ (models.views r ≠ 0 →
          ∃ env, (env, GET_recipe (models.id r)) ∈ reqs)
       ∧ ∃ env body, (env, POST_recipes body) ∈ reqs).
Proof.
  revert w. induction reqs as [|[env req] reqs IH]; intros w Hidle Hpk.
  - cbn [routers.serve snd]. split; [done|]. split; [done|]. split.
    + intros r Hin. exists r. split; [done|]. split; [done|].
      split; [lia|done].
    + intros r Hin Hfresh. exfalso. apply Hfresh.
      apply list_elem_of_fmap. by exists r.
  - rewrite serve_cons. cbn [snd].
    destruct (app_table_step env req w Hidle Hpk) as [Hidle1 Hstep].
    set (w1 := snd (app env req w)) in *.
    assert (primary_key w1) as Hpk1
      by (by eapply table_step_primary_key).
    destruct (IH w1 Hidle1 Hpk1) as (Hidle2 & Hpk2 & Hold & Hnew).
    split; [done|]. split; [done|]. split.
    + intros r Hin.
      destruct (table_step_old _ _ _ r Hstep Hpk Hin)
        as (r1 & Hin1 & Hcols1 & Hle1 & Hch1).
      destruct (Hold _ Hin1) as (r2 & Hin2 & Hcols2 & Hle2 & Hch2).
      exists r2. split; [done|].
      split; [by eapply same_columns_trans|]. split; [lia|]. intros Hne.
      assert (models.id r1 = models.id r) as Hid by apply Hcols1.
      destruct (decide (models.views r = models.views r1)) as [Heq|Hne1].
      * destruct Hch2 as [env' Henv']; [lia|].
        exists env'. rewrite <- Hid. by right.
      * exists env. rewrite <- (Hch1 Hne1). by left.
    + intros r Hin Hfresh.
      destruct (decide (models.id r ∈ models.id <$> table w1)) as [Hin1|Hno1].
      * apply list_elem_of_fmap in Hin1 as (r1 & Hid & Hin1).
        assert (models.id r1 ∉ (models.id <$> table w)) as Hfresh1
          by (by rewrite <- Hid).
        destruct (table_step_new _ _ _ r1 Hstep Hin1 Hfresh1)
          as [Hzero [body Hreq]].
        destruct (Hold _ Hin1) as (r2 & Hin2 & Hcols2 & Hle2 & Hch2).
        assert (models.id r2 = models.id r1) as Hid2 by apply Hcols2.
        assert (r = r2) as ->
          by (apply (same_id_same_row (table (snd (serve reqs w1))));
              [done..|congruence]).
        rewrite Hzero in Hle2, Hch2. split; [done|]. split.
        -- intros Hne. destruct Hch2 as [env' Henv']; [lia|].
           exists env'. rewrite Hid2. by right.
        -- exists env, body. rewrite <- Hreq. by left.
      * destruct (Hnew r Hin Hno1) as (Hge & Hch & env' & body & Hpost).
        split; [done|]. split.
        -- intros Hne. destruct (Hch Hne) as [env'' Henv''].
           exists env''. by right.
        -- exists env', body. by right.
Qed.
End steps.

(** ** The claims about fetching one recipe *)
Section fetch_claims.
Variable time_validator : json → option datetime.time.
Local Abbreviation app := (app time_validator).
Local Abbreviation serve := (serve time_validator).
Implicit Types (r x : models.Recipes) (rows : list models.Recipes).



(** C3, as amended: fetching an id that fits in 64 bits and that no
    stored row has answers 404 with the detail "Recipe not found"; the
    table, the pending changes and the output are as they were, and the
    session is left with the transaction its SELECT opened. *)
Theorem fetch_missing_is_404 env (recipe_id : Z) w :
  int64 recipe_id →
  recipe_id ∉ (models.id <$> table w) →
  app env (GET_recipe recipe_id) w
  = (mk_Response 404 (Detail "Recipe not found"),
     mk_World (table w) (unit_of_work w) (stdout w) true).
Proof. apply app_GET_recipe_missing. Qed.

(** C6, on the code: when the row is found and the commit of the
    increment raises, the change is rolled back (the table is the old
    one and the session holds nothing) and the error is printed, but the
    rollback has expired the instance the handler returns, its
    attributes cannot be read for the response, and the caller gets a
    500, not a 200 with the incremented count. *)
Theorem fetch_commit_failure_answers_500 env msg w r :
  idle w → primary_key w → r ∈ table w → int64 (models.id r) →
  commit_error env = Some msg →
  app env (GET_recipe (models.id r)) w
  = (mk_Response 500 InternalServerError,
     mk_World (table w) []
              (stdout w ++ ["Error updating view count: " +:+ msg]) true).
Proof.
  intros Hidle Hpk Hin Hid Hmsg.
  rewrite (app_GET_recipe_found _ env w r Hidle Hpk Hin Hid).
  unfold commit_failure. by rewrite Hmsg.
Qed.

End fetch_claims.

(** ** The list *)
Section listing.
Variable time_validator : json → option datetime.time.
Local Abbreviation app := (app time_validator).

#[local] Instance time_le_total : Total datetime.time_le.
Proof. intros [] []. unfold datetime.time_le. simpl. lia. Qed.

#[local] Instance time_le_trans : Transitive datetime.time_le.
Proof. intros [] [] []. unfold datetime.time_le. simpl. lia. Qed.

#[local] Instance order_by_total : Total order_by.
Proof.
  intros a b. unfold order_by.
  destruct (total datetime.time_le (models.cooking_time a) (models.cooking_time b));
    destruct (Z.lt_total (models.views a) (models.views b)) as [|[|]];
    auto with lia.
Qed.

#[local] Instance order_by_trans : Transitive order_by.
Proof.
  intros a b c. unfold order_by. intros [Hab|[Hab Htab]] [Hbc|[Hbc Htbc]].
  - left. lia.
  - left. lia.
  - left. lia.
  - right. split; [lia|]. by etrans.
Qed.

End listing.

(** ** Creating a recipe *)
Section creating.
Variable time_validator : json → option datetime.time.
Local Abbreviation app := (app time_validator).
Local Abbreviation model_validate := (schemas.model_validate time_validator).

Lemma app_GET_begins env req w :
  idle w → primary_key w → is_GET req →
  in_transaction (snd (app env req w)) = true.
Proof.
  intros Hidle Hpk Hget.
  pose proof (app_cases time_validator env req w Hidle Hpk) as Hcase.
  destruct req as [|recipe_id|body]; [| |done].
  - by rewrite Hcase.
  - destruct Hcase as [[_ ->]|[(_ & _ & ->)|(r & _ & _ & _ & ->)]]; [done..|].
    by destruct (commit_failure env (models.views r + 1)).
Qed.

(** C4, on the code: a create request whose body validates, sent after
    the shared session has served a list or a fetch, is refused.  The
    read left a transaction open on the session, [session.begin()]
    raises on it, the answer is a 500 and nothing at all changes: no row
    is inserted. *)
Theorem create_after_read_is_refused env0 req env body
    (recipe : schemas.RecipesIn) w :
  idle w → primary_key w → is_GET req →
  model_validate body = inr recipe →
  app env (POST_recipes body) (snd (app env0 req w))
  = (mk_Response 500 InternalServerError, snd (app env0 req w)).
Proof.
  intros Hidle Hpk Hget Hvalid.
  apply (app_POST_in_transaction _ env body recipe); [done|].
  by apply app_GET_begins.
Qed.

Lemma model_validate_missing body (key : string) :
  key ∈ schemas.model_fields → body !! key = None →
  ∃ errors, model_validate body = inl errors
            ∧ schemas.mk_error key schemas.missing ∈ errors.
Proof.
  intros Hkey Hnone. unfold schemas.model_fields in Hkey.
  unfold schemas.model_validate, schemas.validate_field.
  repeat (apply elem_of_cons in Hkey as [->|Hkey]);
    [..|by apply elem_of_nil in Hkey];
    rewrite Hnone; repeat case_match; simplify_eq;
    eexists; (split; [done|]); set_solver.
Qed.

Lemma model_validate_bad_time body v :
  body !! "cooking_time" = Some v → time_validator v = None →
  ∃ errors, model_validate body = inl errors
            ∧ schemas.mk_error "cooking_time" schemas.time_parsing ∈ errors.
Proof.
  intros Hv Hbad.
  unfold schemas.model_validate, schemas.validate_field.
  rewrite Hv, Hbad. repeat case_match; simplify_eq;
    eexists; (split; [done|]); set_solver.
Qed.

(** C5: a body that lacks one of the four declared fields, or whose
    cooking_time is present and rejected by the time parser, is answered
    with a 422 that lists at least one error; the handler is not entered,
    so the state (table, session, output) is the one before the request,
    whatever storage would have done. *)
Theorem invalid_body_is_422 env body w :
  (∃ key, key ∈ schemas.model_fields ∧ body !! key = None)
  ∨ (∃ v, body !! "cooking_time" = Some v ∧ time_validator v = None) →
  ∃ errors,
    errors ≠ []
    ∧ app env (POST_recipes body) w
      = (mk_Response 422 (ValidationErrors errors), w).
Proof.
  intros [(key & Hkey & Hnone)|(v & Hv & Hbad)].
  - destruct (model_validate_missing body key Hkey Hnone) as (errors & Hval & Hin).
    exists errors. split; [by intros ->; apply elem_of_nil in Hin|].
    unfold routers.app. by rewrite Hval.
  - destruct (model_validate_bad_time body v Hv Hbad) as (errors & Hval & Hin).
    exists errors. split; [by intros ->; apply elem_of_nil in Hin|].
    unfold routers.app. by rewrite Hval.
Qed.

(** C10: two bodies that agree on the four declared keys get the same
    answer and leave the same state, whatever other keys either of them
    carries; and whenever the answer is a created recipe, its views is 0. *)
Theorem undeclared_keys_are_ignored env body1 body2 w :
  (∀ key, key ∈ schemas.model_fields → body1 !! key = body2 !! key) →
  app env (POST_recipes body1) w = app env (POST_recipes body2) w
  ∧ ∀ r, content (fst (app env (POST_recipes body1) w)) = Recipe r →
         idle w →
         schemas.views r = 0 ∧ schemas.id r = next_id (table w).
Proof.
  intros Hagree.
  assert (model_validate body1 = model_validate body2) as Hsame.
  { unfold schemas.model_validate, schemas.validate_field.
    rewrite !Hagree; [done|..]; unfold schemas.model_fields; set_solver. }
  split.
  - unfold routers.app. by rewrite Hsame.
  - intros r Hr Hidle.
    destruct (model_validate body1) as [errors|recipe] eqn:Hvalid.
    + by rewrite (app_POST_invalid _ env body1 errors w Hvalid) in Hr.
    + destruct (in_transaction w) eqn:Htx.
      * by rewrite (app_POST_in_transaction _ env body1 recipe w Hvalid Htx)
          in Hr.
      * rewrite (app_POST_fresh _ env body1 recipe w Hvalid Hidle Htx) in Hr.
        destruct (commit_error env); [done|].
        cbn in Hr. by simplify_eq.
Qed.
End creating.

(** ** Histories of requests *)
Section histories.
Variable time_validator : json → option datetime.time.
Local Abbreviation app := (app time_validator).
Local Abbreviation serve := (serve time_validator).
Local Abbreviation model_validate := (schemas.model_validate time_validator).
Implicit Types (r x : models.Recipes) (rows : list models.Recipes).

(** C8: over any sequence of list, fetch and create requests, started in
    a state that satisfies the invariants: a row stored at the start is
    still stored at the end under the same id with its name, cooking
    time, ingredients and description as they were and with [views] not
    smaller, and its [views] has changed only if the sequence fetches
    that id; a row that was not stored at the start comes from a create
    request of the sequence, has [views] at least 0, and more than 0
    only if the sequence fetches its id; the end state satisfies the
    invariants again, so the same holds from there on. *)
Theorem views_only_grow_and_only_by_fetch reqs w :
  idle w → primary_key w →
  (∀ r, r ∈ table w →
     ∃ r', stored (snd (serve reqs w)) (models.id r) = Some r'
           ∧ same_columns r r'
           ∧ models.views r ≤ models.views r'
           ∧ (models.views r ≠ models.views r' →
              ∃ env, (env, GET_recipe (models.id r)) ∈ reqs))
  ∧ (∀ r, r ∈ table (snd (serve reqs w)) →
       models.id r ∉ (models.id <$> table w) →
       0 ≤ models.views r
       ∧ (models.views r ≠ 0 →
          ∃ env, (env, GET_recipe (models.id r)) ∈ reqs)
       ∧ ∃ env body, (env, POST_recipes body) ∈ reqs)
  ∧ idle (snd (serve reqs w))
  ∧ primary_key (snd (serve reqs w)).
Proof.
  intros Hidle Hpk.
  destruct (serve_history time_validator reqs w Hidle Hpk)
    as (Hidle' & Hpk' & Hold & Hnew).
  split; [|done].
  intros r Hin. destruct (Hold r Hin) as (r' & Hin' & Hcols & Hle & Hch).
  exists r'. split; [|done].
  assert (models.id r' = models.id r) as <- by apply Hcols.
  by apply stored_elem.
Qed.



Lemma fetches_nonneg (recipe_id : Z) reqs : 0 ≤ fetches recipe_id reqs.
Proof.
  induction reqs as [|[env [|i|body]] reqs IH]; cbn [fetches]; [lia..| |lia].
  case_decide; lia.
Qed.

(** One request moves the count of a stored row by what
    [committed_fetches] says, as long as the count fits. *)
Lemma app_counts env req w r :
  idle w → primary_key w → r ∈ table w →
  int64 (models.id r) →
  int64 (models.views r + fetches (models.id r) [(env, req)]) →
  ∃ r', r' ∈ table (snd (app env req w))
        ∧ same_columns r r'
        ∧ models.views r'
          = models.views r + committed_fetches (models.id r) [(env, req)].
Proof.
  intros Hidle Hpk Hin Hid Hfits.
  pose proof (app_cases time_validator env req w Hidle Hpk) as Hcase.
  destruct req as [|recipe_id|body]; cbn [committed_fetches fetches] in *.
  - rewrite Hcase. exists r. split; [done|]. split; [done|]. lia.
  - destruct Hcase as [[Hbig ->]|[(_ & Hno & ->)|(r0 & Hin0 & -> & _ & ->)]].
    + exists r. split; [done|]. split; [done|].
      rewrite decide_False; [lia|]. by intros ->.
    + exists r. split; [done|]. split; [done|].
      rewrite decide_False; [lia|]. intros ->. apply Hno.
      apply list_elem_of_fmap. by exists r.
    + destruct (decide (models.id r0 = models.id r)) as [Heq|Hne].
      * assert (r0 = r) as -> by (by apply (same_id_same_row (table w))).
        unfold commit_failure. destruct (commit_error env) as [msg|].
        -- exists r. split; [done|]. split; [done|]. lia.
        -- rewrite decide_True by (by rewrite Z.add_0_r in Hfits).
           exists (models.with_views (models.views r + 1) r).
           split; [by apply update_views_elem|].
           destruct (with_views_columns (models.views r + 1) r) as [Hv Hc].
           split; [done|]. lia.
      * exists r. split; [|split; [done|lia]].
        destruct (commit_failure env (models.views r0 + 1)); [done|].
        cbn [snd table]. apply update_views_other; [done|]. cbn. congruence.
  - exists r. split; [|split; [done|lia]].
    destruct (model_validate body) as [errors|recipe]; [by rewrite Hcase|].
    destruct (in_transaction w); [by rewrite Hcase|].
    destruct (commit_error env); rewrite Hcase; [done|].
    cbn [snd table]. apply elem_of_app. by left.
Qed.

(** X3: over any history of requests, the stored count of a row grows by
    exactly the number of fetches of its id whose commit storage
    accepted, however these are interleaved with other requests and with
    refused commits, as long as the count stays within 64 bits; the
    other columns of the row are as they were. *)
Theorem views_count_committed_fetches reqs w r :
  idle w → primary_key w → r ∈ table w →
  int64 (models.id r) → int64 (models.views r) →
  int64 (models.views r + fetches (models.id r) reqs) →
  ∃ r', stored (snd (serve reqs w)) (models.id r) = Some r'
        ∧ models.views r'
          = models.views r + committed_fetches (models.id r) reqs
        ∧ same_columns r r'.
Proof.
  revert w r. induction reqs as [|[env req] reqs IH];
    intros w r Hidle Hpk Hin Hid Hv Hfits.
  - cbn [routers.serve snd committed_fetches]. exists r.
    split; [by apply stored_elem|]. split; [lia|done].
  - rewrite serve_cons. cbn [snd].
    destruct (app_keeps_invariants time_validator env req w Hidle Hpk)
      as [Hidle1 Hpk1].
    pose proof (fetches_nonneg (models.id r) reqs) as Hrest.
    assert (0 ≤ fetches (models.id r) [(env, req)]
            ∧ fetches (models.id r) ((env, req) :: reqs)
              = fetches (models.id r) [(env, req)] + fetches (models.id r) reqs
            ∧ committed_fetches (models.id r) ((env, req) :: reqs)
              = committed_fetches (models.id r) [(env, req)]
                + committed_fetches (models.id r) reqs
            ∧ 0 ≤ committed_fetches (models.id r) [(env, req)]
                ≤ fetches (models.id r) [(env, req)])
      as (Hone & Hsplit & Hcsplit & Hbound).
    { cbn [fetches committed_fetches]. destruct req; [lia| |lia].
      case_decide; [|lia]. destruct (commit_error env); lia. }
    destruct (app_counts env req w r Hidle Hpk Hin Hid)
      as (r1 & Hin1 & Hcols1 & Hviews1).
    { unfold int64 in *. lia. }
    assert (models.id r1 = models.id r) as Hid1 by apply Hcols1.
    destruct (IH _ r1 Hidle1 Hpk1 Hin1) as (r' & Hstored & Hviews & Hcols).
    { by rewrite Hid1. }
    { rewrite Hviews1. unfold int64 in *. lia. }
    { rewrite Hviews1, Hid1. unfold int64 in *. lia. }
    rewrite Hid1 in Hstored, Hviews.
    exists r'. split; [done|]. split; [lia|].
    by eapply same_columns_trans.
Qed.

Lemma app_length env req w :
  idle w → primary_key w →
  length (table (snd (app env req w)))
  = (length (table w) + created [(env, req)] [fst (app env req w)])%nat.
Proof.
  intros Hidle Hpk.
  pose proof (app_cases time_validator env req w Hidle Hpk) as Hcase.
  destruct req as [|recipe_id|body]; cbn [created].
  - rewrite Hcase. cbn [snd begun table]. lia.
  - destruct Hcase as [[_ ->]|[(_ & _ & ->)|(r & _ & _ & _ & ->)]];
      cbn [snd begun table]; [lia..|].
    destruct (commit_failure env (models.views r + 1)); cbn [snd table].
    + lia.
    + rewrite update_views_length. lia.
  - destruct (model_validate body) as [errors|recipe].
    + rewrite Hcase. cbn [fst snd status_code]. rewrite decide_False by done. lia.
    + destruct (in_transaction w).
      * rewrite Hcase. cbn [fst snd status_code internal_server_error].
        rewrite decide_False by done. lia.
      * destruct (commit_error env); rewrite Hcase;
          cbn [fst snd status_code table internal_server_error].
        -- rewrite decide_False by done. lia.
        -- rewrite decide_True by done. rewrite length_app. cbn [length]. lia.
Qed.

(** X4: no request deletes a row, and rows appear only through create
    requests: after any history the table has exactly as many rows more
    as create requests of the history were answered with a 200. *)
Theorem rows_grow_by_creations reqs w :
  idle w → primary_key w →
  length (table (snd (serve reqs w)))
  = (length (table w) + created reqs (fst (serve reqs w)))%nat.
Proof.
  revert w. induction reqs as [|[env req] reqs IH]; intros w Hidle Hpk.
  - cbn [routers.serve fst snd created]. lia.
  - rewrite serve_cons. cbn [fst snd].
    destruct (app_keeps_invariants time_validator env req w Hidle Hpk)
      as [Hidle1 Hpk1].
    rewrite (IH _ Hidle1 Hpk1), (app_length env req w Hidle Hpk).
    cbn [created]. destruct req; lia.
Qed.

End histories.

(** ** More about the handlers *)
Section handlers.
Variable time_validator : json → option datetime.time.
Local Abbreviation app := (app time_validator).
Local Abbreviation serve := (serve time_validator).
Local Abbreviation model_validate := (schemas.model_validate time_validator).
Implicit Types (r x : models.Recipes) (rows : list models.Recipes).

#[local] Existing Instances order_by_total order_by_trans.



(** X11: a create request with a valid body on an idle session that has
    no transaction open (no list or fetch was served since the last
    create): the row to insert has views 0 and an id that no stored row
    has; when storage accepts the commit the table is the old one
    followed by that single row and the answer is a 200 carrying it;
    when storage refuses, the answer is a 500 and nothing changes. *)
Theorem create_on_fresh_session env body (recipe : schemas.RecipesIn) w :
  idle w → in_transaction w = false →
  model_validate body = inr recipe →
  models.views (created_row recipe (table w)) = 0
  ∧ (models.id (created_row recipe (table w)) ∉ (models.id <$> table w))
  ∧ app env (POST_recipes body) w
    = match commit_error env with
      | None =>
          (mk_Response 200
             (Recipe (schemas.mk_RecipesOut recipe (next_id (table w)) 0)),
           mk_World (table w ++ [created_row recipe (table w)]) []
                    (stdout w) false)
      | Some _ => (mk_Response 500 InternalServerError, w)
      end.
Proof.
  intros Hidle Htx Hvalid. split; [done|]. split; [apply next_id_fresh|].
  by apply app_POST_fresh.
Qed.

(** X7: the create handler does not look for an existing recipe: the
    same valid body sent twice to a session with no transaction open,
    both commits succeeding, is answered twice with a 200 carrying the
    same fields and views 0 under two different ids, and the table has
    two more rows. *)
Theorem create_twice_makes_two_rows env1 env2 body
    (recipe : schemas.RecipesIn) w :
  idle w → in_transaction w = false →
  model_validate body = inr recipe →
  commit_error env1 = None → commit_error env2 = None →
  ∃ id1 id2,
    fst (serve [(env1, POST_recipes body); (env2, POST_recipes body)] w)
    = [mk_Response 200 (Recipe (schemas.mk_RecipesOut recipe id1 0));
       mk_Response 200 (Recipe (schemas.mk_RecipesOut recipe id2 0))]
    ∧ id1 ≠ id2
    ∧ length (table (snd (serve [(env1, POST_recipes body);
                                 (env2, POST_recipes body)] w)))
      = (length (table w) + 2)%nat.
Proof.
  intros Hidle Htx Hvalid Hok1 Hok2.
  pose proof (app_POST_fresh _ env1 body recipe w Hvalid Hidle Htx) as Hfirst.
  rewrite Hok1 in Hfirst.
  set (w1 := mk_World (table w ++ [created_row recipe (table w)]) []
                      (stdout w) false) in *.
  pose proof (app_POST_fresh _ env2 body recipe w1 Hvalid eq_refl eq_refl)
    as Hsecond.
  rewrite Hok2 in Hsecond.
  rewrite !serve_cons. cbn [routers.serve fst snd].
  rewrite Hfirst. cbn [fst snd]. rewrite Hsecond. cbn [fst snd table].
  eexists _, _. split; [done|]. split.
  - pose proof (next_id_above (table w1) (created_row recipe (table w)))
      as Habove.
    cbn [models.id created_row] in Habove.
    assert (next_id (table w) < next_id (table w1)); [|lia].
    apply Habove. apply elem_of_app. right. by left.
  - unfold w1. cbn [table]. rewrite !length_app. cbn [length]. lia.
Qed.

Lemma time_le_antisym (a b : datetime.time) :
  datetime.time_le a b → datetime.time_le b a → a = b.
Proof.
  destruct a as [h1 m1 s1 u1], b as [h2 m2 s2 u2].
  unfold datetime.time_le. cbn. intros Hab Hba.
  assert (h1 = h2 ∧ m1 = m2 ∧ s1 = s2 ∧ u1 = u2) as (-> & -> & -> & ->) by lia.
  done.
Qed.

Lemma order_by_both_ways x y :
  order_by x y → order_by y x →
  models.views x = models.views y
  ∧ models.cooking_time x = models.cooking_time y.
Proof.
  unfold order_by. intros [Hxy|[Hv Hxy]] [Hyx|[Hv' Hyx]]; try lia.
  split; [done|]. by apply time_le_antisym.
Qed.

(** X8: when no two stored rows share both their views and their
    cooking time, the list is fixed by the set of stored rows alone: two
    tables that hold the same rows in different row order are listed
    identically. *)
Theorem list_does_not_depend_on_row_order env1 env2 w1 w2 :
  table w1 ≡ₚ table w2 →
  (∀ x y, x ∈ table w1 → y ∈ table w1 →
          models.views x = models.views y →
          models.cooking_time x = models.cooking_time y → x = y) →
  fst (app env1 GET_recipes w1) = fst (app env2 GET_recipes w2).
Proof.
  intros Hperm Hkeys. rewrite !app_GET_recipes. cbn [fst]. do 3 f_equal.
  apply (StronglySorted_unique_strong order_by).
  - intros x y Hx Hy Hxy Hyx.
    rewrite merge_sort_Permutation in Hx, Hy. rewrite <- Hperm in Hy.
    destruct (order_by_both_ways x y Hxy Hyx) as [Hv Ht].
    by apply Hkeys.
  - apply StronglySorted_merge_sort; apply _.
  - apply StronglySorted_merge_sort; apply _.
  - by rewrite !merge_sort_Permutation.
Qed.

(** X9: the first entry of a non-empty list is a stored recipe that no
    stored recipe has more views than. *)
Theorem list_starts_with_a_most_viewed env w o outs :
  content (fst (app env GET_recipes w)) = RecipeList (o :: outs) →
  (∃ x, x ∈ table w ∧ o = from_attributes x)
  ∧ ∀ r, r ∈ table w → models.views r ≤ schemas.views o.
Proof.
  rewrite app_GET_recipes. cbn [fst content]. intros [= Hlist].
  pose proof (StronglySorted_merge_sort order_by (table w)) as Hsorted.
  pose proof (merge_sort_Permutation order_by (table w)) as Hperm.
  destruct (merge_sort order_by (table w)) as [|x rows]; [done|].
  rewrite fmap_cons in Hlist. injection Hlist as <- _.
  apply StronglySorted_inv in Hsorted as [_ Hhead].
  split.
  - exists x. split; [|done]. rewrite <- Hperm. by left.
  - intros r Hr. rewrite <- Hperm in Hr.
    apply elem_of_cons in Hr as [->|Hr]; [done|].
    rewrite Forall_forall in Hhead. specialize (Hhead r Hr).
    unfold order_by in Hhead. cbn [schemas.views from_attributes]. lia.
Qed.

(** X10: an instance added to an idle session and committed, with a
    views value that fits in 64 bits, becomes one new row at the end of
    the table, under an id that no row had, with the views the
    constructor was given or 0 when it was given none, and with the
    fields it was made with; refreshing it reads that same row back and
    leaves the session with the transaction the reload opened. *)
Theorem added_instance_reads_back (recipe : models.Transient) w :
  idle w →
  int64 (match models.kw_views recipe with Some v => v | None => 0 end) →
  ∃ r,
    add_commit_refresh recipe w
    = (inr r, mk_World (table w ++ [r]) [] (stdout w) true)
    ∧ (models.id r ∉ (models.id <$> table w))
    ∧ models.views r
      = match models.kw_views recipe with Some v => v | None => 0 end
    ∧ from_attributes r
      = schemas.mk_RecipesOut (models.kw_fields recipe)
          (models.id r) (models.views r).
Proof.
  destruct w as [rows uow out tx]. unfold idle. cbn. intros -> Hfits.
  exists (models.persist (next_id rows) recipe).
  assert (models.views (models.persist (next_id rows) recipe)
          = match models.kw_views recipe with Some v => v | None => 0 end)
    as Hviews by (by destruct recipe as [[v|] fields]).
  split; [|split; [apply next_id_fresh|split; [done|]]].
  - unfold add_commit_refresh, add. unfold mbind, M_bind, autobegin, commit.
    cbn [table unit_of_work stdout in_transaction]. rewrite app_nil_l.
    cbn [flush]. rewrite decide_True by (by rewrite Hviews).
    cbn [mbind option_bind last]. unfold refresh, mbind, M_bind, autobegin.
    cbn [table unit_of_work stdout in_transaction models.id models.persist].
    rewrite filter_app, (filter_id_absent rows (next_id rows)).
    + rewrite filter_cons, decide_True by done. done.
    + intros r Hr Heq. apply (next_id_fresh rows).
      rewrite <- Heq. apply list_elem_of_fmap. by exists r.
  - by destruct recipe as [v []].
Qed.
End handlers.

(** ** The theorems at the data of the test suite *)
Section witnesses.
Local Abbreviation app := (app pydantic.time_validator).
Local Abbreviation serve := (serve pydantic.time_validator).
Import fixtures.

Lemma test_db_idle : idle test_db.
Proof. reflexivity. Defined.

Lemma test_db_primary_key : primary_key test_db.
Proof. unfold primary_key. compute_done. Defined.

Lemma carbonara_stored : carbonara ∈ table test_db.
Proof. left. Defined.

Lemma carbonara_id_fits : int64 (models.id carbonara).
Proof. unfold int64. cbn. lia. Defined.


Lemma fetch_missing_is_404_witness :
  int64 999
  ∧ (999 ∉ (models.id <$> table test_db))
  ∧ app no_faults (GET_recipe 999) test_db
    = (mk_Response 404 (Detail "Recipe not found"),
       mk_World sample_recipes [] [] true).
Proof.
  assert (int64 999) as Hfits by (unfold int64; lia).
  assert (999 ∉ (models.id <$> table test_db)) as Hno by compute_done.
  split; [exact Hfits|]. split; [exact Hno|].
  exact (fetch_missing_is_404 pydantic.time_validator no_faults 999 test_db
           Hfits Hno).
Defined.

(** C3 as it was stated fails: an id beyond 64 bits matches no stored
    row, and fetching it is answered with a 500, not a 404. *)
Lemma fetch_missing_beyond_int64 :
  (2 ^ 63 ∉ (models.id <$> table test_db))
  ∧ fst (app no_faults (GET_recipe (2 ^ 63)) test_db)
    = mk_Response 500 InternalServerError
  ∧ ¬ (∀ env (recipe_id : Z) w,
         recipe_id ∉ (models.id <$> table w) →
         fst (app env (GET_recipe recipe_id) w)
         = mk_Response 404 (Detail "Recipe not found")).
Proof.
  assert (2 ^ 63 ∉ (models.id <$> table test_db)) as Hno by compute_done.
  assert (fst (app no_faults (GET_recipe (2 ^ 63)) test_db)
          = mk_Response 500 InternalServerError) as H500
    by (vm_compute; reflexivity).
  split; [exact Hno|]. split; [exact H500|].
  intros Hclaim. specialize (Hclaim no_faults (2 ^ 63) test_db Hno).
  rewrite H500 in Hclaim. discriminate Hclaim.
Qed.

Lemma new_recipe_validates :
  schemas.model_validate pydantic.time_validator new_recipe = inr caesar.
Proof. vm_compute. reflexivity. Defined.

Lemma create_after_read_is_refused_witness :
  idle test_db ∧ primary_key test_db ∧ is_GET GET_recipes
  ∧ schemas.model_validate pydantic.time_validator new_recipe = inr caesar
  ∧ app no_faults (POST_recipes new_recipe)
        (snd (app no_faults GET_recipes test_db))
    = (mk_Response 500 InternalServerError,
       mk_World sample_recipes [] [] true).
Proof.
  split; [exact test_db_idle|]. split; [exact test_db_primary_key|].
  split; [exact I|]. split; [exact new_recipe_validates|].
  exact (create_after_read_is_refused pydantic.time_validator no_faults
           GET_recipes no_faults new_recipe caesar test_db
           test_db_idle test_db_primary_key I new_recipe_validates).
Defined.

Lemma invalid_body_is_422_witness :
  ((∃ key, key ∈ schemas.model_fields ∧ incomplete_recipe !! key = None)
   ∨ (∃ v, incomplete_recipe !! "cooking_time" = Some v
           ∧ pydantic.time_validator v = None))
  ∧ (∃ errors,
       errors ≠ []
       ∧ app no_faults (POST_recipes incomplete_recipe) test_db
         = (mk_Response 422 (ValidationErrors errors), test_db))
  ∧ ((∃ key, key ∈ schemas.model_fields ∧ invalid_recipe !! key = None)
     ∨ (∃ v, invalid_recipe !! "cooking_time" = Some v
             ∧ pydantic.time_validator v = None))
  ∧ (∃ errors,
       errors ≠ []
       ∧ app no_faults (POST_recipes invalid_recipe) test_db
         = (mk_Response 422 (ValidationErrors errors), test_db)).
Proof.
  assert ((∃ key, key ∈ schemas.model_fields ∧ incomplete_recipe !! key = None)
          ∨ (∃ v, incomplete_recipe !! "cooking_time" = Some v
                  ∧ pydantic.time_validator v = None)) as Hmissing.
  { left. exists "description". split; [|reflexivity].
    right. right. right. left. }
  assert ((∃ key, key ∈ schemas.model_fields ∧ invalid_recipe !! key = None)
          ∨ (∃ v, invalid_recipe !! "cooking_time" = Some v
                  ∧ pydantic.time_validator v = None)) as Hbad.
  { right. exists (JString "invalid_time"). split; reflexivity. }
  split; [exact Hmissing|]. split.
  - exact (invalid_body_is_422 pydantic.time_validator no_faults
             incomplete_recipe test_db Hmissing).
  - split; [exact Hbad|].
    exact (invalid_body_is_422 pydantic.time_validator no_faults
             invalid_recipe test_db Hbad).
Defined.

Lemma fetch_commit_failure_answers_500_witness :
  idle test_db ∧ primary_key test_db ∧ carbonara ∈ table test_db
  ∧ int64 (models.id carbonara)
  ∧ commit_error disk_full = Some "disk full"
  ∧ app disk_full (GET_recipe 1) test_db
    = (mk_Response 500 InternalServerError,
       mk_World sample_recipes []
                ["Error updating view count: disk full"] true).
Proof.
  split; [exact test_db_idle|]. split; [exact test_db_primary_key|].
  split; [exact carbonara_stored|]. split; [exact carbonara_id_fits|].
  split; [reflexivity|].
  exact (fetch_commit_failure_answers_500 pydantic.time_validator disk_full
           "disk full" test_db carbonara
           test_db_idle test_db_primary_key carbonara_stored
           carbonara_id_fits eq_refl).
Defined.




Lemma views_only_grow_and_only_by_fetch_witness :
  idle test_db ∧ primary_key test_db
  ∧ (∃ r', stored (snd (serve history test_db)) 1 = Some r'
           ∧ same_columns carbonara r'
           ∧ 100 ≤ models.views r')
  ∧ idle (snd (serve history test_db))
  ∧ primary_key (snd (serve history test_db)).
Proof.
  split; [exact test_db_idle|]. split; [exact test_db_primary_key|].
  destruct (views_only_grow_and_only_by_fetch pydantic.time_validator
              history test_db test_db_idle test_db_primary_key)
    as (Hold & _ & Hidle & Hpk).
  split; [|exact (conj Hidle Hpk)].
  destruct (Hold carbonara carbonara_stored) as (r' & Hstored & Hcols & Hle & _).
  exists r'. exact (conj Hstored (conj Hcols Hle)).
Defined.

Lemma undeclared_keys_agree (key : string) :
  key ∈ schemas.model_fields → new_recipe_extra !! key = new_recipe !! key.
Proof.
  intros Hkey. unfold schemas.model_fields in Hkey.
  repeat (apply elem_of_cons in Hkey as [->|Hkey]);
    [reflexivity..|by apply elem_of_nil in Hkey].
Defined.

Lemma undeclared_keys_are_ignored_witness :
  (∀ key, key ∈ schemas.model_fields →
          new_recipe_extra !! key = new_recipe !! key)
  ∧ app no_faults (POST_recipes new_recipe_extra) test_db
    = app no_faults (POST_recipes new_recipe) test_db
  ∧ content (fst (app no_faults (POST_recipes new_recipe_extra) test_db))
    = Recipe (schemas.mk_RecipesOut caesar 4 0).
Proof.
  split; [exact undeclared_keys_agree|].
  split; [|vm_compute; reflexivity].
  exact (proj1 (undeclared_keys_are_ignored pydantic.time_validator no_faults
                  new_recipe_extra new_recipe test_db undeclared_keys_agree)).
Defined.

(** [test_recipes_sorted_by_views_and_time] *)
Example list_of_test_db_by_views :
  match content (fst (app no_faults GET_recipes test_db)) with
  | RecipeList outs => (λ o, schemas.name (schemas.base o)) <$> outs
  | _ => []
  end = ["Borscht"; "Pasta Carbonara"; "Omelette"].
Proof. vm_compute. reflexivity. Qed.

(** Two rows with the same views: the shorter cooking time comes first. *)
Example list_breaks_ties_by_cooking_time :
  merge_sort order_by
    [ models.mk_Recipes 1 "slow" 7 (time 2 0 0) "" "";
      models.mk_Recipes 2 "fast" 7 (time 0 5 0) "" "";
      models.mk_Recipes 3 "seen" 9 (time 1 0 0) "" "" ]
  = [ models.mk_Recipes 3 "seen" 9 (time 1 0 0) "" "";
      models.mk_Recipes 2 "fast" 7 (time 0 5 0) "" "";
      models.mk_Recipes 1 "slow" 7 (time 2 0 0) "" "" ].
Proof. vm_compute. reflexivity. Qed.

(** Statuses and final table of the two histories: a create is refused
    once a read was served, and passes when it comes first. *)
Example history_statuses :
  status_code <$> fst (serve history test_db) = [200; 500; 500; 200; 404]
  ∧ length (table (snd (serve history test_db))) = 3%nat
  ∧ status_code <$> fst (serve create_then_read test_db)
    = [200; 200; 500; 200; 500]
  ∧ length (table (snd (serve create_then_read test_db))) = 4%nat.
Proof. vm_compute. done. Qed.

Lemma views_count_committed_fetches_witness :
  idle test_db ∧ primary_key test_db ∧ carbonara ∈ table test_db
  ∧ int64 (models.id carbonara) ∧ int64 (models.views carbonara)
  ∧ int64 (models.views carbonara + fetches 1 history)
  ∧ committed_fetches 1 history = 1
  ∧ ∃ r', stored (snd (serve history test_db)) 1 = Some r'
          ∧ models.views r' = 100 + 1
          ∧ same_columns carbonara r'.
Proof.
  assert (int64 (models.views carbonara)) as Hv by compute_done.
  assert (int64 (models.views carbonara + fetches 1 history)) as HvN
    by compute_done.
  split; [exact test_db_idle|]. split; [exact test_db_primary_key|].
  split; [exact carbonara_stored|]. split; [exact carbonara_id_fits|].
  split; [exact Hv|]. split; [exact HvN|]. split; [reflexivity|].
  exact (views_count_committed_fetches pydantic.time_validator history
           test_db carbonara
           test_db_idle test_db_primary_key carbonara_stored
           carbonara_id_fits Hv HvN).
Defined.

Lemma rows_grow_by_creations_witness :
  idle test_db ∧ primary_key test_db
  ∧ created create_then_read (fst (serve create_then_read test_db)) = 1%nat
  ∧ length (table (snd (serve create_then_read test_db)))
    = (length (table test_db)
       + created create_then_read (fst (serve create_then_read test_db)))%nat.
Proof.
  split; [exact test_db_idle|]. split; [exact test_db_primary_key|].
  split; [vm_compute; reflexivity|].
  exact (rows_grow_by_creations pydantic.time_validator create_then_read
           test_db test_db_idle test_db_primary_key).
Defined.



Lemma create_on_fresh_session_witness :
  idle test_db ∧ in_transaction test_db = false
  ∧ schemas.model_validate pydantic.time_validator new_recipe = inr caesar
  ∧ models.views (created_row caesar sample_recipes) = 0
  ∧ (models.id (created_row caesar sample_recipes)
     ∉ (models.id <$> sample_recipes))
  ∧ app no_faults (POST_recipes new_recipe) test_db
    = (mk_Response 200 (Recipe (schemas.mk_RecipesOut caesar 4 0)),
       mk_World (sample_recipes ++ [created_row caesar sample_recipes]) [] []
                false).
Proof.
  split; [exact test_db_idle|]. split; [reflexivity|].
  split; [exact new_recipe_validates|].
  exact (create_on_fresh_session pydantic.time_validator no_faults new_recipe
           caesar test_db test_db_idle eq_refl new_recipe_validates).
Defined.

Lemma create_twice_makes_two_rows_witness :
  idle test_db ∧ in_transaction test_db = false
  ∧ schemas.model_validate pydantic.time_validator new_recipe = inr caesar
  ∧ commit_error no_faults = None
  ∧ ∃ id1 id2,
      fst (serve [(no_faults, POST_recipes new_recipe);
                  (no_faults, POST_recipes new_recipe)] test_db)
      = [mk_Response 200 (Recipe (schemas.mk_RecipesOut caesar id1 0));
         mk_Response 200 (Recipe (schemas.mk_RecipesOut caesar id2 0))]
      ∧ id1 ≠ id2
      ∧ length (table (snd (serve [(no_faults, POST_recipes new_recipe);
                                   (no_faults, POST_recipes new_recipe)]
                               test_db)))
        = (length (table test_db) + 2)%nat.
Proof.
  split; [exact test_db_idle|]. split; [reflexivity|].
  split; [exact new_recipe_validates|]. split; [reflexivity|].
  exact (create_twice_makes_two_rows pydantic.time_validator no_faults
           no_faults new_recipe caesar test_db
           test_db_idle eq_refl new_recipe_validates eq_refl eq_refl).
Defined.

Lemma reversed_db_same_rows : table test_db ≡ₚ table reversed_db.
Proof.
  cbn. change [omelette; borscht; carbonara]
    with (reverse [carbonara; borscht; omelette]).
  symmetry. apply reverse_Permutation.
Defined.

Lemma test_db_distinct_keys x y :
  x ∈ table test_db → y ∈ table test_db →
  models.views x = models.views y →
  models.cooking_time x = models.cooking_time y → x = y.
Proof.
  cbn. intros Hx Hy.
  repeat (apply elem_of_cons in Hx as [->|Hx]);
    [..|by apply elem_of_nil in Hx];
    (repeat (apply elem_of_cons in Hy as [->|Hy]);
     [..|by apply elem_of_nil in Hy]);
    cbn; intros Hv Ht; first [reflexivity|discriminate Hv].
Defined.

Lemma list_does_not_depend_on_row_order_witness :
  table test_db ≡ₚ table reversed_db
  ∧ (∀ x y, x ∈ table test_db → y ∈ table test_db →
            models.views x = models.views y →
            models.cooking_time x = models.cooking_time y → x = y)
  ∧ fst (app no_faults GET_recipes test_db)
    = fst (app disk_full GET_recipes reversed_db).
Proof.
  split; [exact reversed_db_same_rows|].
  split; [exact test_db_distinct_keys|].
  exact (list_does_not_depend_on_row_order pydantic.time_validator
           no_faults disk_full test_db reversed_db
           reversed_db_same_rows test_db_distinct_keys).
Defined.

Lemma test_db_listed :
  content (fst (app no_faults GET_recipes test_db))
  = RecipeList (from_attributes borscht
                :: [from_attributes carbonara; from_attributes omelette]).
Proof. vm_compute. reflexivity. Defined.

Lemma list_starts_with_a_most_viewed_witness :
  content (fst (app no_faults GET_recipes test_db))
  = RecipeList (from_attributes borscht
                :: [from_attributes carbonara; from_attributes omelette])
  ∧ (∃ x, x ∈ table test_db ∧ from_attributes borscht = from_attributes x)
  ∧ ∀ r, r ∈ table test_db → models.views r ≤ 200.
Proof.
  split; [exact test_db_listed|].
  exact (list_starts_with_a_most_viewed pydantic.time_validator no_faults
           test_db _ _ test_db_listed).
Defined.

Lemma added_instance_reads_back_witness :
  idle test_db
  ∧ int64 42
  ∧ ∃ r,
      add_commit_refresh custom_views test_db
      = (inr r, mk_World (table test_db ++ [r]) [] (stdout test_db) true)
      ∧ (models.id r ∉ (models.id <$> table test_db))
      ∧ models.views r = 42
      ∧ from_attributes r
        = schemas.mk_RecipesOut caesar (models.id r) (models.views r).
Proof.
  assert (int64 42) as Hfits by (unfold int64; lia).
  split; [exact test_db_idle|]. split; [exact Hfits|].
  exact (added_instance_reads_back custom_views test_db test_db_idle Hfits).
Defined.

(** [test_recipe_custom_views]: the constructor takes [views] when the
    caller passes it; the create handler never does. *)
Example persist_custom_views :
  models.views (models.persist 1 (models.mk_Transient (Some 42) caesar)) = 42
  ∧ models.views (models.persist 1 (Recipes_init (model_dump caesar))) = 0.
Proof. split; reflexivity. Qed.
End witnesses.
